(** * The User CRUD backend (backend/main_api.py) over a model of its
      SQLAlchemy session

    The endpoints of [main_api.py] are embedded as computations in a small
    state-and-exception monad whose state is the request's [Session].  The
    session keeps what the code relies on: the rows that are durably
    committed, the rows as the open transaction sees them, the objects that
    were added, modified or marked deleted but not yet flushed, and whether
    the transaction is still usable.

    Three behaviours of the session decide what the endpoints do:
    - [init_db] builds [SessionLocal] with [autoflush=False], so a query
      reads the rows without the changes still pending in the session;
    - a flush that fails rolls the transaction back and leaves the session
      refusing further flushes until [rollback()] is called;
    - assigning to a mapped attribute of a loaded object, the primary key
      included, becomes an UPDATE of that object's row at the next flush.

    The storage engine is an external collaborator.  The table [user] is a
    list of rows in the order a full scan returns them; the only constraint
    the schema declares is the primary key on [id].  Column values are taken
    at their Python types ([int] as [Z], [str] as [string]).  Request bodies
    reach the endpoints already validated as [UserCreate]; that validation
    is modelled separately at the end of the definitions. *)

From Stdlib Require Import ZArith Lia Ascii.
From stdpp Require Import base option list gmap strings pretty.

Local Open Scope string_scope.
Local Open Scope Z_scope.
Local Open Scope list_scope.

(** ** Data model: pydantic_classes.py and sql_alchemy.py *)

(** [datetime.date]. *)
Record date := mkdate { year : Z; month : Z; day : Z }.

(** [class UserCreate(BaseModel)], fields in declaration order. *)
Module UserCreate.
Record t := mk {
  isActive : bool;
  username : string;
  id : Z;
  dateOfBirth : date;
  email : string }.
End UserCreate.
Abbreviation UserCreate := UserCreate.t.

(** [class User(Base)], table ["user"], [id] is the primary key. *)
Module User.
Record t := mk {
  id : Z;
  username : string;
  email : string;
  dateOfBirth : date;
  isActive : bool }.
End User.
Abbreviation User := User.t.

(** The constructor call that [create_user] and [bulk_create_user] make:
    [User(isActive=..., username=..., id=..., dateOfBirth=..., email=...)]. *)
Definition User_of (d : UserCreate) : User :=
  {| User.isActive := UserCreate.isActive d;
     User.username := UserCreate.username d;
     User.id := UserCreate.id d;
     User.dateOfBirth := UserCreate.dateOfBirth d;
     User.email := UserCreate.email d |}.

(** ** The table and its statements *)

Abbreviation Table := (list User).

Definition ids (t : Table) : list Z := map User.id t.

(** The primary-key constraint. *)
Definition wf_table (t : Table) : Prop := NoDup (ids t).

Definition has_pk (i : Z) (t : Table) : bool := bool_decide (i ∈ ids t).

(** [INSERT INTO user ...]: fails on a primary key already present. *)
Definition sql_insert (u : User) (t : Table) : option Table :=
  if has_pk (User.id u) t then None else Some (t ++ [u]).

(** [UPDATE user SET id=?, ... WHERE user.id = pk]: fails when the new key
    belongs to another row. *)
Definition sql_update (pk : Z) (u : User) (t : Table) : option Table :=
  if bool_decide (User.id u ≠ pk) && has_pk (User.id u) t then None
  else Some (map (λ r, if bool_decide (User.id r = pk) then u else r) t).

(** [DELETE FROM user WHERE user.id = pk]. *)
Definition sql_delete (pk : Z) (t : Table) : Table :=
  filter (λ r, User.id r ≠ pk) t.

(** [SELECT ... WHERE user.id = pk LIMIT 1]. *)
Definition sql_select_pk (pk : Z) (t : Table) : option User :=
  head (filter (λ r, User.id r = pk) t).

(** [OFFSET n] and [LIMIT n] as the default engine ([sqlite], see [init_db])
    evaluates them: a negative offset skips nothing and a negative limit is
    no limit. *)
Definition sql_offset (n : Z) (t : Table) : Table := drop (Z.to_nat n) t.
Definition sql_limit (n : Z) (t : Table) : Table :=
  if bool_decide (n < 0) then t else take (Z.to_nat n) t.

(** ** Exceptions and the session monad *)

(** The [detail] of an [HTTPException]: a string, or the dictionary
    [{"message": ..., "errors": [{"index": idx, "error": str(e)}, ...]}]
    that [bulk_create_user] builds. *)
Inductive Detail :=
| DetailStr (s : string)
| DetailErrors (message : string) (errors : list (nat * string)).

Inductive Exn :=
| IntegrityError
| PendingRollbackError
| InvalidRequestError
| HTTPException (status_code : Z) (detail : Detail).

(** [str(e)] for the exceptions a flush raises. *)
Definition str (e : Exn) : string :=
  match e with
  | IntegrityError => "IntegrityError"
  | PendingRollbackError => "PendingRollbackError"
  | InvalidRequestError => "InvalidRequestError"
  | HTTPException _ (DetailStr s) => s
  | HTTPException _ (DetailErrors m _) => m
  end.

Record Session := mkSession {
  committed : Table;          (* durable rows *)
  rows : Table;               (* rows as the open transaction sees them *)
  new : list User;            (* session.new: added, INSERT not emitted yet *)
  dirty : list (Z * User);    (* loaded key and current attributes of modified objects *)
  deleted : list Z;           (* session.deleted: marked, DELETE not emitted yet *)
  active : bool               (* false after a failed flush, until rollback() *)
}.

Definition M (A : Type) : Type := Session → (Exn + A) * Session.

Definition ret {A} (a : A) : M A := λ s, (inr a, s).
Definition raise {A} (e : Exn) : M A := λ s, (inl e, s).
Definition bind {A B} (c : M A) (k : A → M B) : M B :=
  λ s, match c s with
       | (inl e, s') => (inl e, s')
       | (inr a, s') => k a s'
       end.
(** [try: c  except Exception as e: ...] hands the outcome to the caller. *)
Definition try {A} (c : M A) : M (Exn + A) :=
  λ s, let '(r, s') := c s in (inr r, s').

Notation "x <~ c ;; k" := (bind c (λ x, k))
  (at level 100, c at next level, right associativity).
Notation "c ;;; k" := (bind c (λ _, k))
  (at level 100, right associativity).

(** *** Session operations *)

(** [database.add(obj)]. *)
Definition add (u : User) : M unit :=
  λ s, (inr (), mkSession (committed s) (rows s) (new s ++ [u]) (dirty s) (deleted s) (active s)).

(** [database.delete(obj)]: marks the object's key for deletion; marking a
    key that is already marked changes nothing. *)
Definition mark (D : list Z) (i : Z) : list Z :=
  if bool_decide (i ∈ D) then D else D ++ [i].

Definition delete (u : User) : M unit :=
  λ s, (inr (),
        mkSession (committed s) (rows s) (new s) (dirty s)
          (mark (deleted s) (User.id u)) (active s)).

(** A persistent object handed out by a query: the key it was loaded under
    and its current attributes.  [setattr] writes the attribute and the
    session tracks the object as dirty. *)
Record Obj := mkObj { key : Z; attrs : User }.

Definition track (o : Obj) (d : list (Z * User)) : list (Z * User) :=
  filter (λ p, p.1 ≠ key o) d ++ [(key o, attrs o)].

Definition setattr (o : Obj) (f : User → User) : M Obj :=
  λ s, let o' := mkObj (key o) (f (attrs o)) in
       (inr o', mkSession (committed s) (rows s) (new s) (track o' (dirty s)) (deleted s) (active s)).

Definition set_isActive (v : bool) (u : User) : User :=
  User.mk (User.id u) (User.username u) (User.email u) (User.dateOfBirth u) v.
Definition set_username (v : string) (u : User) : User :=
  User.mk (User.id u) v (User.email u) (User.dateOfBirth u) (User.isActive u).
Definition set_id (v : Z) (u : User) : User :=
  User.mk v (User.username u) (User.email u) (User.dateOfBirth u) (User.isActive u).
Definition set_dateOfBirth (v : date) (u : User) : User :=
  User.mk (User.id u) (User.username u) (User.email u) v (User.isActive u).
Definition set_email (v : string) (u : User) : User :=
  User.mk (User.id u) (User.username u) v (User.dateOfBirth u) (User.isActive u).

(** The statements of one flush: inserts, then updates, then deletes. *)
Fixpoint flush_new (us : list User) (t : Table) : option Table :=
  match us with
  | [] => Some t
  | u :: us' => match sql_insert u t with
                | Some t' => flush_new us' t'
                | None => None
                end
  end.

Fixpoint flush_dirty (ds : list (Z * User)) (t : Table) : option Table :=
  match ds with
  | [] => Some t
  | (pk, u) :: ds' => match sql_update pk u t with
                      | Some t' => flush_dirty ds' t'
                      | None => None
                      end
  end.

Definition flush_deleted (ks : list Z) (t : Table) : Table :=
  fold_left (λ t' k, sql_delete k t') ks t.

Definition is_clean (s : Session) : bool :=
  match new s, dirty s, deleted s with
  | [], [], [] => true
  | _, _, _ => false
  end.

(** [database.flush()].  A clean session has nothing to flush.  A session
    whose transaction was rolled back by an earlier failed flush refuses.
    A statement that violates the primary key rolls the whole transaction
    back, expunges the pending objects and leaves the session inactive. *)
Definition flush : M unit :=
  λ s, if is_clean s then (inr (), s)
       else if negb (active s) then (inl PendingRollbackError, s)
       else match flush_new (new s) (rows s) with
            | None => (inl IntegrityError, mkSession (committed s) (committed s) [] [] [] false)
            | Some t1 =>
              match flush_dirty (dirty s) t1 with
              | None => (inl IntegrityError, mkSession (committed s) (committed s) [] [] [] false)
              | Some t2 =>
                (inr (), mkSession (committed s) (flush_deleted (deleted s) t2) [] [] [] true)
              end
            end.

(** [database.commit()]: flush, then make the transaction's rows durable. *)
Definition commit : M unit :=
  λ s, if negb (active s) then (inl PendingRollbackError, s)
       else match flush s with
            | (inl e, s') => (inl e, s')
            | (inr _, s') => (inr (), mkSession (rows s') (rows s') [] [] [] true)
            end.

(** [database.rollback()]. *)
Definition rollback : M unit :=
  λ s, (inr (), mkSession (committed s) (committed s) [] [] [] true).

(** [database.refresh(obj)]: reload the row of the object's key. *)
Definition refresh (u : User) : M User :=
  λ s, if negb (active s) then (inl PendingRollbackError, s)
       else match sql_select_pk (User.id u) (rows s) with
            | Some r => (inr r, s)
            | None => (inl InvalidRequestError, s)
            end.

(** *** Queries: [database.query(User)] and its builders *)

Module Query.
Record t := mk {
  where_id : option Z;        (* .filter(User.id == x) *)
  offset_by : option Z;       (* .offset(n) *)
  limit_to : option Z         (* .limit(n) *)
}.

Definition filter (x : Z) (q : t) : t := mk (Some x) (offset_by q) (limit_to q).
Definition offset (n : Z) (q : t) : t := mk (where_id q) (Some n) (limit_to q).
Definition limit (n : Z) (q : t) : t := mk (where_id q) (offset_by q) (Some n).

(** The rows a query selects: WHERE, then OFFSET, then LIMIT. *)
Definition select (q : t) (tbl : Table) : Table :=
  let t1 := match where_id q with
            | Some x => base.filter (λ r, User.id r = x) tbl
            | None => tbl
            end in
  let t2 := match offset_by q with Some n => sql_offset n t1 | None => t1 end in
  match limit_to q with Some n => sql_limit n t2 | None => t2 end.

(** The session does not autoflush, so a query reads the transaction's
    rows as they are, pending changes left out. *)
Definition run {A} (f : Table → A) : M A :=
  λ s, if negb (active s) then (inl PendingRollbackError, s)
       else (inr (f (rows s)), s).

Definition all (q : t) : M (list User) := run (select q).
Definition count (q : t) : M nat := run (λ tbl, length (select q tbl)).
Definition first (q : t) : M (option User) := run (λ tbl, head (select q tbl)).
End Query.

(** [database.query(User)]. *)
Definition query_User : Query.t := Query.mk None None None.

(** ** Request scope and exception handlers *)

(** [SessionLocal()]: a fresh session on the durable rows. *)
Definition SessionLocal (db : Table) : Session := mkSession db db [] [] [] true.

(** [get_db]: the endpoint runs inside [try: yield db]; an exception rolls
    the session back and is raised again; the session is closed on every
    path, so what outlives the request is what was committed. *)
Definition get_db {A} (endpoint : M A) (db : Table) : (Exn + A) * Table :=
  match endpoint (SessionLocal db) with
  | (inr a, s) => (inr a, committed s)
  | (inl e, s) => (inl e, committed (rollback s).2)
  end.

Module JSONResponse.
Record t := mk {
  status_code : Z;
  error : string;
  message : Detail;
  detail : string }.
End JSONResponse.
Abbreviation JSONResponse := JSONResponse.t.

Definition integrity_error_handler (exc : Exn) : JSONResponse :=
  JSONResponse.mk 409 "Conflict" (DetailStr "Data conflict occurred") (str exc).

Definition sqlalchemy_error_handler (exc : Exn) : JSONResponse :=
  JSONResponse.mk 500 "Internal Server Error" (DetailStr "Database operation failed")
    "An internal database error occurred".

Definition http_exception_handler (status_code : Z) (detail : Detail) : JSONResponse :=
  JSONResponse.mk status_code
    (match detail with DetailStr s => s | DetailErrors _ _ => "HTTP Error" end)
    detail
    ("HTTP " +:+ pretty status_code +:+ " error occurred").

(** The handler registered for the most specific class of the exception. *)
Definition exception_handler (exc : Exn) : JSONResponse :=
  match exc with
  | IntegrityError => integrity_error_handler exc
  | PendingRollbackError | InvalidRequestError => sqlalchemy_error_handler exc
  | HTTPException c d => http_exception_handler c d
  end.

(** One request against the application: the endpoint under [get_db], an
    exception turned into its error response. *)
Definition app {A} (endpoint : M A) (db : Table) : (JSONResponse + A) * Table :=
  match get_db endpoint db with
  | (inr a, db') => (inr a, db')
  | (inl e, db') => (inl (exception_handler e), db')
  end.


(** ** User functions *)

Definition get_all_user (detailed : bool) : M (list User) := Query.all query_User.

(** Returns [{"count": count}]. *)
Record CountBody := mkCountBody { count : nat }.

Definition get_count_user : M CountBody :=
  count <~ Query.count query_User ;;
  ret (mkCountBody count).

Module Page.
Record t := mk { total : nat; skip : Z; limit : Z; data : list User }.
End Page.

Definition get_paginated_user (skip limit : Z) (detailed : bool) : M Page.t :=
  total <~ Query.count query_User ;;
  user_list <~ Query.all (Query.limit limit (Query.offset skip query_User)) ;;
  ret (Page.mk total skip limit user_list).

Definition search_user : M (list User) :=
  let query := query_User in
  results <~ Query.all query ;;
  ret results.

(** Returns [response_data = {"user": db_user}]. *)
Record UserBody := mkUserBody { user : User }.

Definition not_found_exc : Exn := HTTPException 404 (DetailStr "User not found").

Definition get_user (user_id : Z) : M UserBody :=
  db_user <~ Query.first (Query.filter user_id query_User) ;;
  match db_user with
  | None => raise not_found_exc
  | Some db_user => ret (mkUserBody db_user)
  end.

Definition create_user (user_data : UserCreate) : M User :=
  let db_user := User_of user_data in
  add db_user ;;;
  commit ;;;
  db_user <~ refresh db_user ;;
  ret db_user.

(** [f"Successfully created {n} User entities"] and its sibling. *)
Definition created_message (n : nat) : string :=
  "Successfully created " +:+ pretty n +:+ " User entities".
Definition deleted_message (n : nat) : string :=
  "Successfully deleted " +:+ pretty n +:+ " User entities".

Module BulkCreated.
Record t := mk { created_count : nat; created_ids : list Z; message : string }.
End BulkCreated.

(** The [for idx, item_data in enumerate(items)] loop with its two
    accumulators. *)
Fixpoint bulk_create_loop (idx : nat) (items : list UserCreate)
    (created_items : list Z) (errors : list (nat * string))
  : M (list Z * list (nat * string)) :=
  match items with
  | [] => ret (created_items, errors)
  | item_data :: items' =>
    r <~ try (let db_user := User_of item_data in
              add db_user ;;;
              flush ;;;
              ret (User.id db_user)) ;;
    match r with
    | inr new_id => bulk_create_loop (S idx) items' (created_items ++ [new_id]) errors
    | inl e => bulk_create_loop (S idx) items' created_items (errors ++ [(idx, str e)])
    end
  end.

Definition bulk_create_user (items : list UserCreate) : M BulkCreated.t :=
  acc <~ bulk_create_loop 0 items [] [] ;;
  let '(created_items, errors) := acc in
  match errors with
  | _ :: _ =>
    rollback ;;;
    raise (HTTPException 400 (DetailErrors "Bulk creation failed" errors))
  | [] =>
    commit ;;;
    ret (BulkCreated.mk (length created_items) created_items
           (created_message (length created_items)))
  end.

Module BulkDeleted.
Record t := mk { deleted_count : nat; not_found : list Z; message : string }.
End BulkDeleted.

Fixpoint bulk_delete_loop (ids : list Z) (deleted_count : nat) (not_found : list Z)
  : M (nat * list Z) :=
  match ids with
  | [] => ret (deleted_count, not_found)
  | item_id :: ids' =>
    db_user <~ Query.first (Query.filter item_id query_User) ;;
    match db_user with
    | Some db_user =>
      delete db_user ;;;
      bulk_delete_loop ids' (S deleted_count) not_found
    | None => bulk_delete_loop ids' deleted_count (not_found ++ [item_id])
    end
  end.

Definition bulk_delete_user (ids : list Z) : M BulkDeleted.t :=
  acc <~ bulk_delete_loop ids 0%nat [] ;;
  let '(deleted_count, not_found) := acc in
  commit ;;;
  ret (BulkDeleted.mk deleted_count not_found
         (deleted_message deleted_count)).

Definition update_user (user_id : Z) (user_data : UserCreate) : M User :=
  db_user <~ Query.first (Query.filter user_id query_User) ;;
  match db_user with
  | None => raise not_found_exc
  | Some row =>
    let db_user := mkObj (User.id row) row in
    db_user <~ setattr db_user (set_isActive (UserCreate.isActive user_data)) ;;
    db_user <~ setattr db_user (set_username (UserCreate.username user_data)) ;;
    db_user <~ setattr db_user (set_id (UserCreate.id user_data)) ;;
    db_user <~ setattr db_user (set_dateOfBirth (UserCreate.dateOfBirth user_data)) ;;
    db_user <~ setattr db_user (set_email (UserCreate.email user_data)) ;;
    commit ;;;
    db_user <~ refresh (attrs db_user) ;;
    ret db_user
  end.

Definition delete_user (user_id : Z) : M User :=
  db_user <~ Query.first (Query.filter user_id query_User) ;;
  match db_user with
  | None => raise not_found_exc
  | Some db_user =>
    delete db_user ;;;
    commit ;;;
    ret db_user
  end.

(** ** Requests and reachable storage states *)

Inductive Request :=
| GET_user (detailed : bool)
| GET_user_count
| GET_user_paginated (skip limit : Z) (detailed : bool)
| GET_user_search
| GET_user_id (user_id : Z)
| POST_user (user_data : UserCreate)
| POST_user_bulk (items : list UserCreate)
| DELETE_user_bulk (ids : list Z)
| PUT_user_id (user_id : Z) (user_data : UserCreate)
| DELETE_user_id (user_id : Z).

(** The durable rows after a request. *)
Definition after (req : Request) (db : Table) : Table :=
  match req with
  | GET_user detailed => (get_db (get_all_user detailed) db).2
  | GET_user_count => (get_db get_count_user db).2
  | GET_user_paginated skip limit detailed =>
    (get_db (get_paginated_user skip limit detailed) db).2
  | GET_user_search => (get_db search_user db).2
  | GET_user_id user_id => (get_db (get_user user_id) db).2
  | POST_user user_data => (get_db (create_user user_data) db).2
  | POST_user_bulk items => (get_db (bulk_create_user items) db).2
  | DELETE_user_bulk ids => (get_db (bulk_delete_user ids) db).2
  | PUT_user_id user_id user_data => (get_db (update_user user_id user_data) db).2
  | DELETE_user_id user_id => (get_db (delete_user user_id) db).2
  end.

(** [init_db] creates the empty table; every later state comes from a
    request. *)
Inductive reachable : Table → Prop :=
| reachable_init : reachable []
| reachable_after req db : reachable db → reachable (after req db).

(** ** The statistics endpoint and the status of an answer *)

(** [sum(stats.values())] over the dictionary built so far. *)
Definition sum_values (stats : gmap string nat) : nat :=
  map_fold (λ _ v acc, (v + acc)%nat) 0%nat stats.

(** [get_statistics]: the dictionary is filled key by key, the total is
    computed from the entries present when it is assigned. *)
Definition get_statistics : M (gmap string nat) :=
  let stats : gmap string nat := ∅ in
  user_count <~ Query.count query_User ;;
  let stats := <["user_count" := user_count]> stats in
  let stats := <["total_entities" := sum_values stats]> stats in
  ret stats.



(** ** Auxiliary notions used to describe the bulk-create loop *)

(** Index of the first item whose key is already taken, by a row of the
    table or by an item before it. *)
Fixpoint first_collision (seen : list Z) (items : list UserCreate) : option nat :=
  match items with
  | [] => None
  | d :: items' =>
    if bool_decide (UserCreate.id d ∈ seen) then Some 0%nat
    else S <$> first_collision (seen ++ [UserCreate.id d]) items'
  end.

(** The entries the loop records once the session refuses to flush. *)
Definition refused (start n : nat) : list (nat * string) :=
  map (λ j, (j, str PendingRollbackError)) (seq start n).


(** ** Sample data *)

Definition ada : UserCreate :=
  UserCreate.mk true "ada" 1 (mkdate 1990 1 1) "a@x.com".
Definition bob : UserCreate :=
  UserCreate.mk false "bob" 2 (mkdate 1985 12 24) "b@x.com".
Definition eve : UserCreate :=
  UserCreate.mk true "eve" 3 (mkdate 2001 2 28) "e@x.com".

(** ** Request validation: what [UserCreate] accepts *)

(** The JSON values a request body carries for these fields. *)
Inductive JSON :=
| JNull
| JBool (b : bool)
| JNum (n : Z)
| JStr (s : string).

Inductive FieldError :=
| Missing (field : string)
| Invalid (field : string).

Section Validation.
(** The per-type validators of the model's four field types. *)
Variable as_bool : JSON → option bool.
Variable as_str : JSON → option string.
Variable as_int : JSON → option Z.
Variable as_date : JSON → option date.

(** The fields [UserCreate] declares.  The class sets no [model_config],
    so keys outside this list are neither validated nor kept. *)
Definition UserCreate_fields : list string :=
  ["isActive"; "username"; "id"; "dateOfBirth"; "email"].

Definition validate_field {A} (name : string) (conv : JSON → option A)
    (raw : gmap string JSON) : FieldError + A :=
  match raw !! name with
  | None => inl (Missing name)
  | Some v => match conv v with
              | Some a => inr a
              | None => inl (Invalid name)
              end
  end.

Definition field_errors {A} (r : FieldError + A) : list FieldError :=
  match r with inl e => [e] | inr _ => [] end.

(** Every declared field is validated; the errors of all of them are
    reported together. *)
Definition UserCreate_validate (raw : gmap string JSON)
  : list FieldError + UserCreate :=
  let isActive := validate_field "isActive" as_bool raw in
  let username := validate_field "username" as_str raw in
  let id := validate_field "id" as_int raw in
  let dateOfBirth := validate_field "dateOfBirth" as_date raw in
  let email := validate_field "email" as_str raw in
  match isActive, username, id, dateOfBirth, email with
  | inr a, inr u, inr i, inr d, inr e => inr (UserCreate.mk a u i d e)
  | _, _, _, _, _ =>
    inl (field_errors isActive ++ field_errors username ++ field_errors id
         ++ field_errors dateOfBirth ++ field_errors email)
  end.
End Validation.

(** The plain JSON form of each type: a literal [true]/[false], a string,
    an integer, and a calendar date written [YYYY-MM-DD]. *)
Definition json_bool (v : JSON) : option bool :=
  match v with JBool b => Some b | _ => None end.
Definition json_str (v : JSON) : option string :=
  match v with JStr s => Some s | _ => None end.
Definition json_int (v : JSON) : option Z :=
  match v with JNum n => Some n | _ => None end.

Definition digit (c : Ascii.ascii) : option Z :=
  let n := Z.of_nat (Ascii.nat_of_ascii c) in
  if bool_decide (48 ≤ n ≤ 57) then Some (n - 48) else None.

Fixpoint number (acc : Z) (cs : list Ascii.ascii) : option Z :=
  match cs with
  | [] => Some acc
  | c :: cs' => match digit c with
                | Some d => number (10 * acc + d) cs'
                | None => None
                end
  end.

Definition is_leap (y : Z) : bool :=
  bool_decide (y mod 4 = 0) && (bool_decide (y mod 100 ≠ 0) || bool_decide (y mod 400 = 0)).

Definition days_in_month (y m : Z) : Z :=
  if bool_decide (m = 2) then (if is_leap y then 29 else 28)
  else if bool_decide (m = 4 ∨ m = 6 ∨ m = 9 ∨ m = 11) then 30 else 31.

Definition iso_date (s : string) : option date :=
  match String.list_ascii_of_string s with
  | [y1; y2; y3; y4; "-"%char; m1; m2; "-"%char; d1; d2] =>
    match number 0 [y1; y2; y3; y4], number 0 [m1; m2], number 0 [d1; d2] with
    | Some y, Some m, Some d =>
      if bool_decide (1 ≤ y) && bool_decide (1 ≤ m ≤ 12)
         && bool_decide (1 ≤ d ≤ days_in_month y m)
      then Some (mkdate y m d) else None
    | _, _, _ => None
    end
  | _ => None
  end.

Definition json_date (v : JSON) : option date :=
  match v with JStr s => iso_date s | _ => None end.

Definition UserCreate_model_validate : gmap string JSON → list FieldError + UserCreate :=
  UserCreate_validate json_bool json_str json_int json_date.

Definition ada_json : gmap string JSON :=
  <["id" := JNum 1]> (<["username" := JStr "ada"]> (<["email" := JStr "a@x.com"]>
  (<["dateOfBirth" := JStr "1990-01-01"]> (<["isActive" := JBool true]> ∅)))).


(** * Properties *)

(** ** The table statements *)

Lemma has_pk_true i t : has_pk i t = true ↔ i ∈ ids t.
Proof. unfold has_pk. apply bool_decide_eq_true. Qed.

Lemma has_pk_false i t : has_pk i t = false ↔ i ∉ ids t.
Proof. unfold has_pk. apply bool_decide_eq_false. Qed.

Lemma ids_app t1 t2 : ids (t1 ++ t2) = ids t1 ++ ids t2.
Proof. unfold ids. apply map_app. Qed.

Lemma elem_of_ids i (t : Table) : i ∈ ids t ↔ ∃ r, r ∈ t ∧ User.id r = i.
Proof.
  unfold ids. rewrite list_elem_of_fmap. split; intros (r & H1 & H2); exists r; auto.
Qed.

Lemma select_pk_None i t : sql_select_pk i t = None ↔ i ∉ ids t.
Proof.
  unfold sql_select_pk. rewrite head_None. split.
  - intros Hnil Hin. apply elem_of_ids in Hin as (r & Hr & Hid).
    assert (Hf : r ∈ filter (λ r, User.id r = i) t) by (apply list_elem_of_filter; auto).
    rewrite Hnil in Hf. by apply not_elem_of_nil in Hf.
  - intros Hnot. destruct (filter _ t) as [|r l] eqn:E; [done|].
    exfalso. apply Hnot. apply elem_of_ids. exists r.
    assert (Hf : r ∈ filter (λ r, User.id r = i) t) by (rewrite E; left).
    apply list_elem_of_filter in Hf as [? ?]. auto.
Qed.

Lemma select_pk_Some i t r : sql_select_pk i t = Some r → r ∈ t ∧ User.id r = i.
Proof.
  unfold sql_select_pk. intros H.
  destruct (filter _ t) as [|r' l] eqn:E; simplify_eq/=.
  assert (Hf : r ∈ filter (λ r, User.id r = i) t) by (rewrite E; left).
  apply list_elem_of_filter in Hf as [? ?]. auto.
Qed.

Lemma select_pk_is_Some i t : i ∈ ids t → is_Some (sql_select_pk i t).
Proof.
  intros Hin. destruct (sql_select_pk i t) eqn:E; [eauto|].
  apply select_pk_None in E. contradiction.
Qed.

Lemma select_pk_app_fresh u t :
  User.id u ∉ ids t → sql_select_pk (User.id u) (t ++ [u]) = Some u.
Proof.
  intros Hnot. unfold sql_select_pk. rewrite filter_app.
  apply select_pk_None in Hnot. unfold sql_select_pk in Hnot.
  apply head_None in Hnot. rewrite Hnot. simpl.
  rewrite filter_cons, decide_True by done. done.
Qed.

Lemma ids_sql_delete pk t : ids (sql_delete pk t) = filter (λ i, i ≠ pk) (ids t).
Proof.
  unfold sql_delete, ids. induction t as [|x t IH]; [done|].
  rewrite filter_cons. simpl. rewrite filter_cons.
  destruct (decide (User.id x ≠ pk)); simpl; by rewrite IH.
Qed.

(** ** What each endpoint does to the durable rows *)

Lemma flush_one_new c r u :
  flush (mkSession c r [u] [] [] true) =
  if has_pk (User.id u) r then (inl IntegrityError, mkSession c c [] [] [] false)
  else (inr (), mkSession c (r ++ [u]) [] [] [] true).
Proof. unfold flush, sql_insert. simpl. unfold sql_insert. by destruct (has_pk _ r). Qed.

Lemma get_db_create_user d db :
  get_db (create_user d) db =
  if has_pk (UserCreate.id d) db then (inl IntegrityError, db)
  else (inr (User_of d), db ++ [User_of d]).
Proof.
  unfold get_db, create_user, bind, add, commit, SessionLocal.
  cbn -[flush refresh has_pk]. rewrite flush_one_new.
  change (User.id (User_of d)) with (UserCreate.id d).
  destruct (has_pk (UserCreate.id d) db) eqn:E; [done|].
  apply has_pk_false in E. unfold refresh. cbn -[sql_select_pk].
  change (UserCreate.id d) with (User.id (User_of d)).
  rewrite select_pk_app_fresh by done. done.
Qed.

Lemma first_by_id i c r n d k :
  Query.first (Query.filter i query_User) (mkSession c r n d k true) =
  (inr (sql_select_pk i r), mkSession c r n d k true).
Proof. done. Qed.

Lemma get_db_get_user i db :
  get_db (get_user i) db =
  match sql_select_pk i db with
  | Some r => (inr (mkUserBody r), db)
  | None => (inl not_found_exc, db)
  end.
Proof.
  unfold get_db, get_user, bind, SessionLocal. rewrite first_by_id.
  by destruct (sql_select_pk i db).
Qed.

Lemma get_db_delete_user i db :
  get_db (delete_user i) db =
  match sql_select_pk i db with
  | Some r => (inr r, sql_delete i db)
  | None => (inl not_found_exc, db)
  end.
Proof.
  unfold get_db, delete_user, bind, SessionLocal. rewrite first_by_id.
  destruct (sql_select_pk i db) as [r|] eqn:E; [|done].
  apply select_pk_Some in E as [_ <-]. done.
Qed.

Lemma track_first o : track o [] = [(key o, attrs o)].
Proof. done. Qed.

(** The five assignments of [update_user] leave the payload's values in
    every attribute, the key included. *)
Lemma setattr_all d row :
  set_email (UserCreate.email d)
    (set_dateOfBirth (UserCreate.dateOfBirth d)
       (set_id (UserCreate.id d)
          (set_username (UserCreate.username d)
             (set_isActive (UserCreate.isActive d) row)))) = User_of d.
Proof. done. Qed.

Lemma track_again k a b : track (mkObj k b) [(k, a)] = [(k, b)].
Proof. unfold track. simpl. rewrite filter_cons, decide_False by (simpl; auto). done. Qed.

Lemma flush_one_dirty c r k u :
  flush (mkSession c r [] [(k, u)] [] true) =
  match sql_update k u r with
  | None => (inl IntegrityError, mkSession c c [] [] [] false)
  | Some t => (inr (), mkSession c t [] [] [] true)
  end.
Proof. unfold flush. simpl. by destruct (sql_update k u r). Qed.

(** After a successful UPDATE of the row of [pk], the new key selects the
    new attributes. *)
Lemma select_pk_after_update pk u t t' :
  pk ∈ ids t → sql_update pk u t = Some t' → sql_select_pk (User.id u) t' = Some u.
Proof.
  unfold sql_update. intros Hin Hup.
  destruct (bool_decide (User.id u ≠ pk) && has_pk (User.id u) t) eqn:Hc; simplify_eq.
  assert (Hfree : ∀ r, r ∈ t → User.id r = User.id u → User.id r = pk).
  { intros r Hr Hid. apply andb_false_iff in Hc as [Hc|Hc].
    - apply bool_decide_eq_false in Hc. destruct (decide (User.id u = pk)); [congruence|contradiction].
    - apply has_pk_false in Hc. exfalso. apply Hc. apply elem_of_ids. eauto. }
  clear Hc. unfold sql_select_pk.
  induction t as [|x t IH]; [by apply not_elem_of_nil in Hin|].
  simpl. destruct (bool_decide (User.id x = pk)) eqn:Hx.
  - rewrite filter_cons, decide_True by done. done.
  - apply bool_decide_eq_false in Hx. rewrite filter_cons.
    destruct (decide (User.id x = User.id u)) as [Heq|Hne].
    + exfalso. apply Hx. apply Hfree; [left|done].
    + apply IH.
      * simpl in Hin. apply elem_of_cons in Hin as [->|Hin]; [done|done].
      * intros r Hr. apply Hfree. by right.
Qed.

Lemma get_db_update_user i d db :
  get_db (update_user i d) db =
  match sql_select_pk i db with
  | None => (inl not_found_exc, db)
  | Some _ =>
    match sql_update i (User_of d) db with
    | None => (inl IntegrityError, db)
    | Some t => (inr (User_of d), t)
    end
  end.
Proof.
  unfold get_db, update_user, bind, SessionLocal. rewrite first_by_id.
  destruct (sql_select_pk i db) as [row|] eqn:E; [|done].
  pose proof (select_pk_Some _ _ _ E) as [Hrow Hid].
  unfold setattr. cbn -[track commit refresh].
  rewrite track_first. cbn [key attrs]. rewrite !track_again, setattr_all.
  unfold commit. cbn -[flush refresh]. rewrite flush_one_dirty, Hid.
  destruct (sql_update i (User_of d) db) as [t|] eqn:Hup; [|done].
  unfold refresh. cbn -[sql_select_pk].
  assert (Hsel : sql_select_pk (User.id (User_of d)) t = Some (User_of d)).
  { apply (select_pk_after_update i _ db); [|done]. apply elem_of_ids. eauto. }
  simpl in Hsel. by rewrite Hsel.
Qed.

(** *** The bulk-delete loop *)


Lemma elem_of_marks L : ∀ D i, i ∈ fold_left mark L D ↔ i ∈ D ∨ i ∈ L.
Proof.
  induction L as [|x L IH]; intros D i; simpl.
  - rewrite elem_of_nil. tauto.
  - rewrite IH, elem_of_cons. unfold mark. case_bool_decide.
    + split; [tauto|]. intros [?|[->|?]]; auto.
    + rewrite elem_of_app, list_elem_of_singleton. tauto.
Qed.

Lemma filter_ext_elem {A} (P Q : A → Prop) `{∀ x, Decision (P x), ∀ x, Decision (Q x)}
    (l : list A) :
  (∀ x, x ∈ l → (P x ↔ Q x)) → filter P l = filter Q l.
Proof.
  induction l as [|x l IH]; intros HPQ; [done|].
  rewrite !filter_cons. rewrite IH by (intros; apply HPQ; by right).
  destruct (decide (P x)) as [HP|HP], (decide (Q x)) as [HQ|HQ]; try done.
  - exfalso. apply HQ, HPQ; [left|done].
  - exfalso. apply HP, HPQ; [left|done].
Qed.

Lemma flush_deleted_filter D : ∀ t, flush_deleted D t = filter (λ r, User.id r ∉ D) t.
Proof.
  unfold flush_deleted. induction D as [|k D IH]; intros t; simpl.
  - symmetry. induction t as [|x t IHt]; [done|].
    rewrite filter_cons, decide_True by apply not_elem_of_nil. by rewrite IHt.
  - rewrite IH. unfold sql_delete. rewrite list_filter_filter.
    apply list_filter_iff. intros r. rewrite not_elem_of_cons. tauto.
Qed.

Lemma flush_only_deleted c r D :
  flush (mkSession c r [] [] D true) = (inr (), mkSession c (flush_deleted D r) [] [] [] true).
Proof. by destruct D. Qed.

Lemma bulk_delete_loop_run l : ∀ cnt nf D c r,
  bulk_delete_loop l cnt nf (mkSession c r [] [] D true) =
  (inr ((cnt + length (filter (λ i, i ∈ ids r) l))%nat, nf ++ filter (λ i, i ∉ ids r) l),
   mkSession c r [] [] (fold_left mark (filter (λ i, i ∈ ids r) l) D) true).
Proof.
  induction l as [|i l IH]; intros cnt nf D c r.
  - simpl. unfold ret. by rewrite Nat.add_0_r, app_nil_r.
  - cbn [bulk_delete_loop]. unfold bind at 1. rewrite first_by_id.
    rewrite !filter_cons.
    destruct (sql_select_pk i r) as [row|] eqn:E.
    + pose proof (select_pk_Some _ _ _ E) as [Hrow Hid].
      assert (Hin : i ∈ ids r) by (apply elem_of_ids; eauto).
      rewrite decide_True, decide_False by auto.
      unfold bind, delete. cbn [committed rows new dirty deleted active].
      rewrite IH, Hid. simpl.
      by rewrite Nat.add_succ_r.
    + apply select_pk_None in E.
      rewrite decide_False, decide_True by auto.
      rewrite IH. by rewrite <- app_assoc.
Qed.


Lemma get_db_bulk_delete_user l db :
  get_db (bulk_delete_user l) db =
  (inr (BulkDeleted.mk (length (filter (λ i, i ∈ ids db) l))
          (filter (λ i, i ∉ ids db) l)
          (deleted_message (length (filter (λ i, i ∈ ids db) l)))),
   filter (λ r, User.id r ∉ l) db).
Proof.
  unfold get_db, bulk_delete_user, SessionLocal. unfold bind at 1.
  rewrite bulk_delete_loop_run. cbn [Nat.add app].
  unfold bind, commit. cbn [active negb]. rewrite flush_only_deleted.
  cbn [rows committed ret]. f_equal.
  rewrite flush_deleted_filter. apply filter_ext_elem. intros r Hr.
  rewrite elem_of_marks, list_elem_of_filter, elem_of_nil.
  assert (User.id r ∈ ids db) by (apply elem_of_ids; eauto). tauto.
Qed.

(** *** The bulk-create loop *)


Lemma bulk_create_loop_inactive items : ∀ idx created errors c r n,
  bulk_create_loop idx items created errors (mkSession c r n [] [] false) =
  (inr (created, errors ++ refused idx (length items)),
   mkSession c r (n ++ map User_of items) [] [] false).
Proof.
  induction items as [|d items IH]; intros idx created errors c r n.
  - simpl. unfold ret, refused. simpl. by rewrite !app_nil_r.
  - cbn [bulk_create_loop]. unfold bind at 1, try, bind, add, flush.
    cbn [committed rows new dirty deleted active negb].
    assert (Hdirty : is_clean (mkSession c r (n ++ [User_of d]) [] [] false) = false)
      by (unfold is_clean; simpl; by destruct n).
    rewrite Hdirty. rewrite IH. unfold refused. simpl.
    by rewrite <- !app_assoc.
Qed.

Lemma bulk_create_loop_active items : ∀ idx created c r,
  bulk_create_loop idx items created [] (mkSession c r [] [] [] true) =
  match first_collision (ids r) items with
  | None =>
    (inr (created ++ map UserCreate.id items, []),
     mkSession c (r ++ map User_of items) [] [] [] true)
  | Some k =>
    (inr (created ++ map UserCreate.id (take k items),
          ((idx + k)%nat, str IntegrityError) :: refused (S (idx + k)) (length items - S k)),
     mkSession c c (map User_of (drop (S k) items)) [] [] false)
  end.
Proof.
  induction items as [|d items IH]; intros idx created c r.
  - simpl. unfold ret. by rewrite !app_nil_r.
  - cbn [bulk_create_loop first_collision]. unfold bind at 1, try, bind, add.
    cbn [committed rows new dirty deleted active]. rewrite app_nil_l, flush_one_new.
    change (User.id (User_of d)) with (UserCreate.id d). unfold has_pk.
    destruct (bool_decide (UserCreate.id d ∈ ids r)) eqn:E.
    + unfold ret. rewrite bulk_create_loop_inactive.
      simpl. rewrite Nat.add_0_r, Nat.sub_0_r, app_nil_r, drop_0. done.
    + unfold ret. rewrite IH, ids_app. simpl.
      destruct (first_collision (ids r ++ [UserCreate.id d]) items) as [k|]; simpl.
      * rewrite <- app_assoc. simpl. rewrite Nat.add_succ_r. done.
      * rewrite <- !app_assoc. done.
Qed.


Lemma get_db_bulk_create_user items db :
  get_db (bulk_create_user items) db =
  match first_collision (ids db) items with
  | None =>
    (inr (BulkCreated.mk (length items) (map UserCreate.id items)
            (created_message (length items))),
     db ++ map User_of items)
  | Some k =>
    (inl (HTTPException 400
            (DetailErrors "Bulk creation failed"
               ((k, str IntegrityError) :: refused (S k) (length items - S k)))),
     db)
  end.
Proof.
  unfold get_db, bulk_create_user, SessionLocal. unfold bind at 1.
  rewrite bulk_create_loop_active.
  destruct (first_collision (ids db) items) as [k|]; simpl.
  - done.
  - unfold created_message. by rewrite length_map.
Qed.




Lemma get_db_get_all_user detailed db : get_db (get_all_user detailed) db = (inr db, db).
Proof. done. Qed.

Lemma get_db_get_count_user db :
  get_db get_count_user db = (inr (mkCountBody (length db)), db).
Proof. done. Qed.

Lemma get_db_search_user db : get_db search_user db = (inr db, db).
Proof. done. Qed.


Lemma wf_sql_delete pk t : wf_table t → wf_table (sql_delete pk t).
Proof. unfold wf_table. rewrite ids_sql_delete. apply NoDup_filter. Qed.

Lemma ids_filter_not_in (l : list Z) (t : Table) :
  ids (filter (λ r, User.id r ∉ l) t) = filter (λ i, i ∉ l) (ids t).
Proof.
  unfold ids. induction t as [|x t IH]; [done|].
  rewrite filter_cons. simpl. rewrite filter_cons.
  destruct (decide (User.id x ∉ l)); simpl; by rewrite IH.
Qed.

Lemma wf_sql_update pk u t t' :
  wf_table t → sql_update pk u t = Some t' → wf_table t'.
Proof.
  unfold wf_table, sql_update. intros Hnd Hup.
  destruct (bool_decide (User.id u ≠ pk) && has_pk (User.id u) t) eqn:Hc; simplify_eq.
  apply andb_false_iff in Hc as [Hc|Hc].
  - apply bool_decide_eq_false in Hc.
    assert (Hsame : User.id u = pk) by (destruct (decide (User.id u = pk)); [done|contradiction]).
    replace (ids (map _ t)) with (ids t); [done|].
    unfold ids. clear Hnd. induction t as [|x t IH]; [done|]. simpl.
    rewrite <- IH. case_bool_decide; congruence.
  - apply has_pk_false in Hc. unfold ids in *.
    induction t as [|x t IH]; [constructor|]. simpl in *.
    apply NoDup_cons in Hnd as [Hx Hnd]. apply not_elem_of_cons in Hc as [Hux Hc].
    apply NoDup_cons. split; [|by apply IH].
    rewrite list_elem_of_fmap. intros (y & Hy & Hin).
    apply list_elem_of_fmap in Hin as (z & -> & Hz).
    assert (Hzt : User.id z ∈ map User.id t) by (apply list_elem_of_fmap; eauto).
    destruct (bool_decide (User.id x = pk)) eqn:E1, (bool_decide (User.id z = pk)) eqn:E2;
      try apply bool_decide_eq_true in E1; try apply bool_decide_eq_true in E2;
      try apply bool_decide_eq_false in E1; try apply bool_decide_eq_false in E2.
    + apply Hx. congruence.
    + apply Hc. congruence.
    + apply Hux. congruence.
    + apply Hx. congruence.
Qed.

Lemma wf_no_collision items : ∀ seen,
  NoDup seen → first_collision seen items = None →
  NoDup (seen ++ map UserCreate.id items).
Proof.
  induction items as [|d items IH]; intros seen Hnd; simpl.
  - by rewrite app_nil_r.
  - case_bool_decide as Hd; [done|]. rewrite fmap_None. intros Hnone.
    rewrite cons_middle, app_assoc. apply IH; [|done].
    apply NoDup_app. split; [done|]. split; [|apply NoDup_singleton].
    intros x Hx ->%list_elem_of_singleton. done.
Qed.

Lemma after_wf req db : wf_table db → wf_table (after req db).
Proof.
  intros Hwf. destruct req; simpl; try done.
  - rewrite get_db_get_user. by destruct (sql_select_pk _ _).
  - rewrite get_db_create_user. destruct (has_pk _ db) eqn:E; [done|].
    apply has_pk_false in E. unfold wf_table. simpl. rewrite ids_app.
    apply NoDup_app. split; [done|]. split; [|apply NoDup_singleton].
    intros x Hx ->%list_elem_of_singleton. done.
  - rewrite get_db_bulk_create_user.
    destruct (first_collision (ids db) items) eqn:E; [done|]. simpl.
    unfold wf_table. rewrite ids_app. unfold ids at 2.
    rewrite <- list_fmap_compose. by apply wf_no_collision.
  - rewrite get_db_bulk_delete_user. simpl. unfold wf_table.
    rewrite ids_filter_not_in. by apply NoDup_filter.
  - rewrite get_db_update_user. destruct (sql_select_pk _ _); [|done].
    destruct (sql_update _ _ db) eqn:E; [|done]. simpl. by eapply wf_sql_update.
  - rewrite get_db_delete_user. destruct (sql_select_pk _ _); [|done].
    simpl. by apply wf_sql_delete.
Qed.

(** The primary key is unique in every reachable state. *)
Lemma reachable_wf db : reachable db → wf_table db.
Proof.
  induction 1 as [|req db _ IH]; [constructor|by apply after_wf].
Qed.

(** ** Responses *)

Ltac stored := apply has_pk_true; vm_compute; reflexivity.
Ltac not_stored := apply has_pk_false; vm_compute; reflexivity.

Lemma app_returns {A} (endpoint : M A) db a db' :
  get_db endpoint db = (inr a, db') → app endpoint db = (inr a, db').
Proof. unfold app. by intros ->. Qed.




(** ** Facts about UPDATE used by the claims on [update_user] *)

Lemma sql_update_Some pk u t t' :
  sql_update pk u t = Some t' ↔
  (User.id u = pk ∨ User.id u ∉ ids t) ∧
  t' = map (λ r, if bool_decide (User.id r = pk) then u else r) t.
Proof.
  unfold sql_update.
  destruct (bool_decide (User.id u ≠ pk) && has_pk (User.id u) t) eqn:Hc.
  - apply andb_true_iff in Hc as [H1 H2].
    apply bool_decide_eq_true in H1. apply has_pk_true in H2.
    split; [done|]. intros [[?|?] _]; contradiction.
  - apply andb_false_iff in Hc. split.
    + intros [= <-]. split; [|done]. destruct Hc as [Hc|Hc].
      * apply bool_decide_eq_false in Hc. left.
        destruct (decide (User.id u = pk)); [done|contradiction].
      * right. by apply has_pk_false.
    + by intros [_ ->].
Qed.

Lemma sql_update_None pk u t :
  sql_update pk u t = None ↔ User.id u ≠ pk ∧ User.id u ∈ ids t.
Proof.
  unfold sql_update.
  destruct (bool_decide (User.id u ≠ pk) && has_pk (User.id u) t) eqn:Hc.
  - apply andb_true_iff in Hc as [H1 H2].
    apply bool_decide_eq_true in H1. apply has_pk_true in H2. done.
  - split; [done|]. intros [H1 H2]. apply andb_false_iff in Hc as [Hc|Hc].
    + apply bool_decide_eq_false in Hc. contradiction.
    + apply has_pk_false in Hc. contradiction.
Qed.





Lemma after_PUT user_id user_data db :
  after (PUT_user_id user_id user_data) db =
  match sql_select_pk user_id db with
  | None => db
  | Some _ => match sql_update user_id (User_of user_data) db with
              | None => db
              | Some t => t
              end
  end.
Proof.
  simpl. rewrite get_db_update_user. destruct (sql_select_pk user_id db); [|done].
  by destruct (sql_update _ _ db).
Qed.


(** ** Collisions in a batch *)




(** * The claims *)

(** The example of the specification: create [ada], read her back, create
    her again. *)
Example ada_created_read_and_refused :
  app (create_user ada) [] = (inr (User_of ada), [User_of ada]) ∧
  app (get_user 1) [User_of ada] = (inr (mkUserBody (User_of ada)), [User_of ada]) ∧
  (app (create_user ada) [User_of ada]).1 = inl (exception_handler IntegrityError) ∧
  JSONResponse.status_code (exception_handler IntegrityError) = 409.
Proof. repeat split; vm_compute; reflexivity. Qed.



(** C8. In every reachable storage state the count that [get_count_user]
    reports is the length of the list that [get_all_user] returns. *)
Theorem count_is_length_of_all (db : Table) (detailed : bool) :
  reachable db →
  ∃ n all, app get_count_user db = (inr (mkCountBody n), db) ∧
           app (get_all_user detailed) db = (inr all, db) ∧
           n = length all.
Proof.
  intros _. exists (length db), db. split; [|split; [|done]].
  - apply app_returns, get_db_get_count_user.
  - apply app_returns, get_db_get_all_user.
Qed.

Lemma count_is_length_of_all_witness :
  ∃ n all, app get_count_user (after (POST_user ada) []) = (inr (mkCountBody n), after (POST_user ada) []) ∧
           app (get_all_user false) (after (POST_user ada) [])
           = (inr all, after (POST_user ada) []) ∧
           n = length all.
Proof.
  apply (count_is_length_of_all (after (POST_user ada) []) false).
  apply reachable_after, reachable_init.
Defined.

(** C10. [bulk_create_user] on the empty list does not raise: it returns
    [created_count] 0 and no [created_ids], and the storage is unchanged. *)
Theorem bulk_create_user_empty (db : Table) :
  ∃ body, app (bulk_create_user []) db = (inr body, db) ∧
          BulkCreated.created_count body = 0%nat ∧
          BulkCreated.created_ids body = [].
Proof.
  exists (BulkCreated.mk 0 [] (created_message 0)). split; [|by split].
  apply app_returns. rewrite get_db_bulk_create_user. simpl. by rewrite app_nil_r.
Qed.












(** C9, as the code has it.  A field name that [UserCreate] does not
    declare is ignored by validation: the input is accepted or rejected,
    and validated to the same record, exactly as it is without that
    field. *)
Theorem UserCreate_validate_ignores_unknown
    (as_bool : JSON → option bool) (as_str : JSON → option string)
    (as_int : JSON → option Z) (as_date : JSON → option date)
    (raw : gmap string JSON) (name : string) :
  is_Some (raw !! name) →
  name ∉ UserCreate_fields →
  UserCreate_validate as_bool as_str as_int as_date raw
  = UserCreate_validate as_bool as_str as_int as_date (base.delete name raw).
Proof.
  intros _ Hunknown. unfold UserCreate_fields in Hunknown.
  repeat (apply not_elem_of_cons in Hunknown as [? Hunknown]).
  unfold UserCreate_validate, validate_field.
  by rewrite !lookup_delete_ne.
Qed.

Lemma UserCreate_validate_ignores_unknown_witness :
  UserCreate_validate json_bool json_str json_int json_date
    (<["nickname" := JStr "countess"]> ada_json)
  = UserCreate_validate json_bool json_str json_int json_date
      (base.delete "nickname" (<["nickname" := JStr "countess"]> ada_json)).
Proof.
  apply (UserCreate_validate_ignores_unknown json_bool json_str json_int json_date
           (<["nickname" := JStr "countess"]> ada_json) "nickname").
  - vm_compute. eexists. reflexivity.
  - apply (bool_decide_eq_false_1 _). vm_compute. reflexivity.
Defined.

(** C9 as stated fails: an input with all declared fields and one
    undeclared field is accepted, and the undeclared field is dropped. *)
Lemma UserCreate_unknown_field_counterexample :
  (<["nickname" := JStr "countess"]> ada_json) !! "nickname" = Some (JStr "countess") ∧
  ("nickname" ∉ UserCreate_fields) ∧
  UserCreate_model_validate (<["nickname" := JStr "countess"]> ada_json) = inr ada.
Proof.
  split; [vm_compute; reflexivity|]. split; [|vm_compute; reflexivity].
  apply (bool_decide_eq_false_1 _). vm_compute. reflexivity.
Qed.



(** ** What [bulk_delete_user] guarantees *)

(** Every listed record that is stored is removed and the others are kept;
    [not_found] lists the ids that are not stored, in request order;
    [deleted_count] is the number of listed ids that are stored, an id
    listed twice being counted twice. *)
Lemma bulk_delete_user_effect (db : Table) (l : list Z) :
  ∃ body, app (bulk_delete_user l) db = (inr body, filter (λ r, User.id r ∉ l) db) ∧
          BulkDeleted.not_found body = filter (λ i, i ∉ ids db) l ∧
          BulkDeleted.deleted_count body = length (filter (λ i, i ∈ ids db) l).
Proof.
  eexists. split; [apply app_returns, get_db_bulk_delete_user|]. by split.
Qed.



(** The outcome does not depend on the order of the ids. *)
Lemma bulk_delete_user_order (db : Table) (l1 l2 : list Z) :
  l1 ≡ₚ l2 →
  (app (bulk_delete_user l1) db).2 = (app (bulk_delete_user l2) db).2 ∧
  filter (λ i, i ∉ ids db) l1 ≡ₚ filter (λ i, i ∉ ids db) l2 ∧
  length (filter (λ i, i ∈ ids db) l1) = length (filter (λ i, i ∈ ids db) l2).
Proof.
  intros Hperm. split; [|split].
  - rewrite !(app_returns _ _ _ _ (get_db_bulk_delete_user _ db)). simpl.
    apply filter_ext_elem. intros r _. by rewrite Hperm.
  - by rewrite Hperm.
  - by rewrite Hperm.
Qed.

(** C6.  [bulk_delete_user] on the ids [1, 1, 5] with records 1 and 2
    stored: the second lookup of id 1 still finds the record, because the
    deletion marked by the first is not flushed before the query, and it
    is counted again.  The response says two entities were deleted; one
    record left the table. *)
Theorem bulk_delete_user_counts_duplicate_ids :
  ∃ body,
    app (bulk_delete_user [1; 1; 5]) [User_of ada; User_of bob] = (inr body, [User_of bob]) ∧
    BulkDeleted.deleted_count body = 2%nat ∧
    BulkDeleted.not_found body = [5] ∧
    BulkDeleted.message body = "Successfully deleted 2 User entities" ∧
    (length [User_of ada; User_of bob] - length [User_of bob] = 1)%nat.
Proof.
  eexists. split; [vm_compute; reflexivity|]. by repeat split.
Qed.

(** * Further properties of the endpoints *)

(** ** Helper facts *)

(** Under the primary-key constraint the row of a key is the one found. *)
Lemma select_pk_unique i t r :
  wf_table t → r ∈ t → User.id r = i → sql_select_pk i t = Some r.
Proof.
  unfold wf_table, ids, sql_select_pk. induction t as [|x t IH]; intros Hnd Hin Hid.
  - by apply not_elem_of_nil in Hin.
  - apply NoDup_cons in Hnd as [Hx Hnd]. rewrite filter_cons.
    apply elem_of_cons in Hin as [->|Hin].
    + rewrite decide_True by done. done.
    + rewrite decide_False; [by apply IH|].
      intros Hxi. apply Hx. apply list_elem_of_fmap. exists r. split; [congruence|done].
Qed.

Lemma sql_delete_absent pk t : pk ∉ ids t → sql_delete pk t = t.
Proof.
  unfold sql_delete, ids. induction t as [|x t IH]; intros Hnot; [done|].
  simpl in Hnot. apply not_elem_of_cons in Hnot as [Hne Hnot].
  rewrite filter_cons, decide_True by congruence. by rewrite IH.
Qed.

Lemma app_storage {A} (endpoint : M A) db : (app endpoint db).2 = (get_db endpoint db).2.
Proof. unfold app. by destruct (get_db endpoint db) as [[?|?] ?]. Qed.

Lemma after_POST d db :
  after (POST_user d) db = if has_pk (UserCreate.id d) db then db else db ++ [User_of d].
Proof. simpl. rewrite get_db_create_user. by destruct (has_pk _ db). Qed.

Lemma after_DELETE i db : after (DELETE_user_id i) db = sql_delete i db.
Proof.
  simpl. rewrite get_db_delete_user. destruct (sql_select_pk i db) eqn:E; [done|].
  apply select_pk_None in E. simpl. by rewrite sql_delete_absent.
Qed.



Lemma sql_delete_appended u t :
  User.id u ∉ ids t → sql_delete (User.id u) (t ++ [u]) = t.
Proof.
  intros Hfresh. unfold sql_delete. rewrite filter_app.
  fold (sql_delete (User.id u) t). rewrite sql_delete_absent by done.
  rewrite filter_cons, decide_False by auto. by rewrite app_nil_r.
Qed.

Lemma length_sql_delete pk t :
  wf_table t → pk ∈ ids t → S (length (sql_delete pk t)) = length t.
Proof.
  unfold wf_table, ids, sql_delete. induction t as [|x t IH]; intros Hnd Hin.
  - by apply not_elem_of_nil in Hin.
  - simpl in *. apply NoDup_cons in Hnd as [Hx Hnd]. rewrite filter_cons.
    destruct (decide (User.id x ≠ pk)) as [Hne|Heq].
    + simpl. f_equal. apply IH; [done|].
      apply elem_of_cons in Hin as [Hin|Hin]; [congruence|done].
    + assert (User.id x = pk) as <- by (destruct (decide (User.id x = pk)); [done|contradiction]).
      f_equal. fold (sql_delete (User.id x) t). fold (ids t) in Hx.
      by rewrite sql_delete_absent.
Qed.

(** ** Invariants and read-only requests *)

(** X1. In every storage state reachable from the empty table through the
    endpoints, no two records carry the same [id]. *)
Theorem primary_key_unique_when_reachable (db : Table) :
  reachable db → NoDup (ids db).
Proof. apply reachable_wf. Qed.

Lemma primary_key_unique_when_reachable_witness :
  NoDup (ids (after (PUT_user_id 1 eve) (after (POST_user_bulk [ada; bob]) []))).
Proof.
  apply (primary_key_unique_when_reachable
           (after (PUT_user_id 1 eve) (after (POST_user_bulk [ada; bob]) []))).
  apply reachable_after, reachable_after, reachable_init.
Defined.

(** X2. The reading endpoints leave the storage as it is, whatever their
    arguments, also when [get_user] answers 404. *)
Theorem reading_leaves_storage_unchanged
    (db : Table) (detailed : bool) (skip limit user_id : Z) :
  (app (get_all_user detailed) db).2 = db ∧
  (app get_count_user db).2 = db ∧
  (app (get_paginated_user skip limit detailed) db).2 = db ∧
  (app search_user db).2 = db ∧
  (app (get_user user_id) db).2 = db ∧
  (app get_statistics db).2 = db.
Proof.
  repeat apply conj; try done.
  unfold app. rewrite get_db_get_user. by destruct (sql_select_pk user_id db).
Qed.

(** X3. [search_user] applies no filter: it answers with the same list as
    [get_all_user], which holds every stored record, and as many of them
    as [get_count_user] counts. *)
Theorem search_user_returns_all (db : Table) (detailed : bool) :
  ∃ results,
    app search_user db = (inr results, db) ∧
    app (get_all_user detailed) db = (inr results, db) ∧
    (∀ r, r ∈ results ↔ r ∈ db) ∧
    app get_count_user db = (inr (mkCountBody (length results)), db).
Proof.
  exists db. split; [apply app_returns, get_db_search_user|].
  split; [apply app_returns, get_db_get_all_user|].
  split; [done|apply app_returns, get_db_get_count_user].
Qed.

(** X4. [get_statistics] answers with exactly two entries: ["user_count"],
    the number of stored records, and ["total_entities"], which is the same
    number, the total being summed while the dictionary holds only the
    user count. *)
Theorem get_statistics_counts_users (db : Table) :
  ∃ stats,
    app get_statistics db = (inr stats, db) ∧
    stats !! "user_count" = Some (length db) ∧
    stats !! "total_entities" = Some (length db) ∧
    dom stats = {["user_count"; "total_entities"]} ∧
    app get_count_user db = (inr (mkCountBody (length db)), db).
Proof.
  exists (<["total_entities" := length db]> (<["user_count" := length db]> ∅)).
  split; [|split; [|split; [|split]]].
  - apply app_returns. unfold get_db, get_statistics, bind, SessionLocal. simpl.
    unfold ret, sum_values. rewrite insert_empty, map_fold_singleton.
    by rewrite Nat.add_0_r.
  - by rewrite lookup_insert_ne, lookup_insert_eq.
  - by rewrite lookup_insert_eq.
  - rewrite !dom_insert_L, dom_empty_L. set_solver.
  - apply app_returns, get_db_get_count_user.
Qed.




(** ** How single-record requests compose *)

(** X7. Creating a record under an id that is not stored and then deleting
    that id gives back the storage one started from. *)
Theorem create_then_delete_restores (db : Table) (user_data : UserCreate) :
  UserCreate.id user_data ∉ ids db →
  after (DELETE_user_id (UserCreate.id user_data)) (after (POST_user user_data) db) = db.
Proof.
  intros Hfresh. rewrite after_DELETE, after_POST.
  apply has_pk_false in Hfresh as Hpk. rewrite Hpk.
  change (UserCreate.id user_data) with (User.id (User_of user_data)).
  by apply sql_delete_appended.
Qed.

Lemma create_then_delete_restores_witness :
  after (DELETE_user_id (UserCreate.id eve)) (after (POST_user eve) [User_of ada; User_of bob])
  = [User_of ada; User_of bob].
Proof.
  apply (create_then_delete_restores [User_of ada; User_of bob] eve). not_stored.
Defined.



(** X9. [update_user] never changes the number of stored records, whether
    it succeeds, answers 404 or answers 409. *)
Theorem update_user_keeps_count (db : Table) (user_id : Z) (user_data : UserCreate) :
  length (app (update_user user_id user_data) db).2 = length db.
Proof.
  rewrite app_storage.
  change (get_db (update_user user_id user_data) db).2
    with (after (PUT_user_id user_id user_data) db).
  rewrite after_PUT. destruct (sql_select_pk user_id db) as [row|]; [|done].
  destruct (sql_update user_id (User_of user_data) db) as [db'|] eqn:E; [|done].
  apply sql_update_Some in E as [_ ->]. apply length_map.
Qed.


(** X11. With unique ids in storage, [delete_user] on a stored id removes
    exactly one record: the count drops by one, the record returned is no
    longer stored and every other record still is. *)
Theorem delete_user_removes_one (db : Table) (user_id : Z) :
  wf_table db → user_id ∈ ids db →
  ∃ removed db',
    app (delete_user user_id) db = (inr removed, db') ∧
    S (length db') = length db ∧
    (removed ∉ db') ∧
    (∀ r, r ∈ db' ↔ r ∈ db ∧ r ≠ removed).
Proof.
  intros Hwf Hin. destruct (select_pk_is_Some _ _ Hin) as [removed Hsel].
  pose proof (select_pk_Some _ _ _ Hsel) as [Hrem Hid].
  exists removed, (sql_delete user_id db).
  split; [apply app_returns; by rewrite get_db_delete_user, Hsel|].
  split; [by apply length_sql_delete|].
  assert (Hiff : ∀ r, r ∈ sql_delete user_id db ↔ r ∈ db ∧ r ≠ removed).
  { intros r. unfold sql_delete. rewrite list_elem_of_filter. split.
    - intros [Hne Hr]. split; [done|]. intros ->. contradiction.
    - intros [Hr Hne]. split; [|done]. intros Hrid. apply Hne.
      pose proof (select_pk_unique user_id db r Hwf Hr Hrid) as Hsel'.
      congruence. }
  split; [|done]. intros Hc. apply Hiff in Hc as [_ Hc]. done.
Qed.

Lemma delete_user_removes_one_witness :
  ∃ removed db',
    app (delete_user 2) [User_of ada; User_of bob; User_of eve] = (inr removed, db') ∧
    S (length db') = length [User_of ada; User_of bob; User_of eve] ∧
    (removed ∉ db') ∧
    (∀ r, r ∈ db' ↔ r ∈ [User_of ada; User_of bob; User_of eve] ∧ r ≠ removed).
Proof.
  apply (delete_user_removes_one [User_of ada; User_of bob; User_of eve] 2).
  - apply (bool_decide_unpack _). vm_compute. reflexivity.
  - stored.
Defined.

(** X12. With unique ids in storage, reading a record with [get_user] and
    writing the same fields back with [update_user] changes nothing. *)
Theorem update_user_with_stored_fields (db : Table) (user_data : UserCreate) :
  wf_table db → User_of user_data ∈ db →
  app (update_user (UserCreate.id user_data) user_data) db = (inr (User_of user_data), db).
Proof.
  intros Hwf Hin. apply app_returns. rewrite get_db_update_user.
  rewrite (select_pk_unique _ db (User_of user_data)) by done.
  destruct (sql_update (UserCreate.id user_data) (User_of user_data) db) as [t|] eqn:E.
  - apply sql_update_Some in E as [_ ->]. f_equal.
    rewrite <- (list_fmap_id db) at 2. apply list_fmap_ext. intros j r Hr. simpl.
    case_bool_decide as Hrid; [|done].
    apply list_elem_of_lookup_2 in Hr.
    pose proof (select_pk_unique _ db r Hwf Hr Hrid) as H1.
    pose proof (select_pk_unique _ db (User_of user_data) Hwf Hin eq_refl) as H2.
    simpl in H2. congruence.
  - apply sql_update_None in E as [Hne _]. done.
Qed.

Lemma update_user_with_stored_fields_witness :
  app (update_user (UserCreate.id bob) bob) [User_of ada; User_of bob]
  = (inr (User_of bob), [User_of ada; User_of bob]).
Proof.
  apply (update_user_with_stored_fields [User_of ada; User_of bob] bob).
  - apply (bool_decide_unpack _). vm_compute. reflexivity.
  - apply list_elem_of_further, list_elem_of_here.
Defined.

(** ** The bulk endpoints against the single-record ones *)


















(** ** Paging *)





(** ** Validation of a request body *)

(** X24. A body that lacks a field [UserCreate] declares is rejected,
    whatever the other fields hold, and the errors name the missing field;
    every error reported names a declared field. *)
Theorem UserCreate_validate_requires_fields
    (as_bool : JSON → option bool) (as_str : JSON → option string)
    (as_int : JSON → option Z) (as_date : JSON → option date)
    (raw : gmap string JSON) :
  (∀ name, name ∈ UserCreate_fields → raw !! name = None →
     ∃ errors, UserCreate_validate as_bool as_str as_int as_date raw = inl errors ∧
               Missing name ∈ errors) ∧
  (∀ errors e, UserCreate_validate as_bool as_str as_int as_date raw = inl errors →
     e ∈ errors →
     ∃ name, name ∈ UserCreate_fields ∧ (e = Missing name ∨ e = Invalid name)).
Proof.
  split.
  - intros name Hname Hmiss. unfold UserCreate_fields in Hname.
    unfold UserCreate_validate, validate_field.
    repeat (apply elem_of_cons in Hname as [->|Hname]);
      [..|by apply not_elem_of_nil in Hname];
      rewrite Hmiss;
      repeat match goal with
             | |- context [raw !! ?k] => destruct (raw !! k) as [?|]
             | |- context [as_bool ?v] => destruct (as_bool v)
             | |- context [as_str ?v] => destruct (as_str v)
             | |- context [as_int ?v] => destruct (as_int v)
             | |- context [as_date ?v] => destruct (as_date v)
             end;
      eexists; (split; [reflexivity|]); simpl; set_solver.
  - intros errors e. unfold UserCreate_validate, validate_field.
    repeat match goal with
           | |- context [raw !! ?k] => destruct (raw !! k) as [?|]
           | |- context [as_bool ?v] => destruct (as_bool v)
           | |- context [as_str ?v] => destruct (as_str v)
           | |- context [as_int ?v] => destruct (as_int v)
           | |- context [as_date ?v] => destruct (as_date v)
           end;
      intros [= <-] He; simpl in He;
      repeat (apply elem_of_cons in He as [->|He]);
      try (by apply not_elem_of_nil in He);
      eexists; (split; [|eauto]); unfold UserCreate_fields; set_solver.
Qed.

Lemma UserCreate_validate_requires_fields_witness :
  ∃ errors,
    UserCreate_validate json_bool json_str json_int json_date (base.delete "email" ada_json)
    = inl errors ∧
    Missing "email" ∈ errors.
Proof.
  apply (UserCreate_validate_requires_fields json_bool json_str json_int json_date
           (base.delete "email" ada_json)).
  - apply (bool_decide_unpack _). vm_compute. reflexivity.
  - vm_compute. reflexivity.
Defined.



(** ** Failed requests and repeated updates *)






